(** * The Worker entry point [src/index.ts]: chat with durable memory,
      and the summarization workflow front end

    A shallow embedding of the three AI routes of the Hono application
    ([POST /chat], [POST /summarize], [GET /summarize/status]) together
    with the values they compute on.  Outbound calls (the Durable Object
    stub, the language model, the Workflow binding) are answered by a
    [Host]; every awaited call is logged, and a rejected promise aborts the
    handler exactly as an uncaught exception inside an [async] function. *)

From stdpp Require Import base option list strings pretty gmap.
From Stdlib Require Import ZArith Ascii String Permutation.

Open Scope Z_scope.
Open Scope string_scope.

(** ** Characters and strings *)

Definition dquote : ascii := "034"%char.
Definition backslash : ascii := "092"%char.
Definition newline : ascii := "010"%char.

(** The one-character string [\n] of the template literals. *)
Definition nl : string := String newline EmptyString.

(** ** JSON values

    What [Response.json()] can produce.  Numbers are kept to the integers
    (a [Z] whose magnitude stays below 2^53), for which [String(n)] and
    [JSON.stringify(n)] are the decimal numeral. *)
#[local] Set Warnings "-register-all".

Inductive json : Type :=
| JNull
| JBool (b : bool)
| JNum (n : Z)
| JStr (s : string)
| JArr (items : list json)
| JObj (fields : list (string * json)).

(** A JavaScript value read from an optional property: [None] is
    [undefined]. *)
Definition jsval : Type := option json.

(** [ToBoolean]: the falsy values are [undefined], [null], [false], [0]
    and the empty string; every array and every object is truthy. *)
Definition truthy (v : jsval) : bool :=
  match v with
  | None => false
  | Some JNull => false
  | Some (JBool b) => b
  | Some (JNum n) => negb (Z.eqb n 0)
  | Some (JStr s) => negb (String.eqb s EmptyString)
  | Some (JArr _) => true
  | Some (JObj _) => true
  end.

(** *** [JSON.stringify] *)

Definition hex_digit (n : nat) : ascii :=
  match n with
  | 0%nat => "0" | 1%nat => "1" | 2%nat => "2" | 3%nat => "3"
  | 4%nat => "4" | 5%nat => "5" | 6%nat => "6" | 7%nat => "7"
  | 8%nat => "8" | 9%nat => "9" | 10%nat => "a" | 11%nat => "b"
  | 12%nat => "c" | 13%nat => "d" | 14%nat => "e" | _ => "f"
  end%char.

(** [QuoteJSONString] on one code unit. *)
Definition escape_char (c : ascii) : string :=
  let n := nat_of_ascii c in
  if Nat.eqb n 34 then String backslash (String dquote EmptyString)
  else if Nat.eqb n 92 then String backslash (String backslash EmptyString)
  else if Nat.eqb n 8 then String backslash "b"
  else if Nat.eqb n 9 then String backslash "t"
  else if Nat.eqb n 10 then String backslash "n"
  else if Nat.eqb n 12 then String backslash "f"
  else if Nat.eqb n 13 then String backslash "r"
  else if Nat.ltb n 32 then
    String backslash
      (String "u" (String "0" (String "0"
        (String (hex_digit (n / 16)) (String (hex_digit (n mod 16)) EmptyString)))))
  else String c EmptyString.

Fixpoint escape_string (s : string) : string :=
  match s with
  | EmptyString => EmptyString
  | String c rest => escape_char c +:+ escape_string rest
  end.

Definition quote_string (s : string) : string :=
  String dquote (escape_string s +:+ String dquote EmptyString).

(** Elements, or members, separated by commas. *)
Fixpoint sep_by (sep : string) (parts : list string) : string :=
  match parts with
  | [] => EmptyString
  | [p] => p
  | p :: rest => p +:+ sep +:+ sep_by sep rest
  end.

Fixpoint stringify (v : json) : string :=
  match v with
  | JNull => "null"
  | JBool true => "true"
  | JBool false => "false"
  | JNum n => pretty n
  | JStr s => quote_string s
  | JArr items => "[" +:+ sep_by "," (List.map stringify items) +:+ "]"
  | JObj fields =>
      "{" +:+
      sep_by ","
        (List.map (fun kv => quote_string (fst kv) +:+ ":" +:+ stringify (snd kv))
                  fields)
      +:+ "}"
  end.

(** [Array.prototype.join] on an array of strings. *)
Definition join (sep : string) (xs : list string) : string := sep_by sep xs.

(** [s] ends with [suffix]. *)
Definition ends_with (suffix s : string) : Prop :=
  exists front : string, s = front +:+ suffix.

(** [s] begins with [prefix]. *)
Definition starts_with (prefix s : string) : Prop :=
  exists rest : string, s = prefix +:+ rest.

(** ** The memory snapshot

    [{ prof?: unknown; hist?: string[] }], the type at which the handler
    reads the reply of the Durable Object. *)
Record snapshot : Type := Snapshot {
  prof : jsval;
  hist : option (list string)
}.

(** The default snapshot of a user with no record yet. *)
Definition empty_snapshot : snapshot := {| prof := None; hist := Some [] |}.

(** [mem.hist ?? []] *)
Definition hist_or_empty (mem : snapshot) : list string :=
  match hist mem with
  | Some h => h
  | None => []
  end.

(** [(mem.hist ?? []).join("\n")] *)
Definition history_text (mem : snapshot) : string :=
  join nl (hist_or_empty mem).

(** What a template literal prints for [JSON.stringify(v)]:
    [JSON.stringify(undefined)] is [undefined]. *)
Definition stringify_val (v : jsval) : string :=
  match v with
  | Some j => stringify j
  | None => "undefined"
  end.

(** [mem.prof ? `User profile: ${JSON.stringify(mem.prof)}\n` : ""] *)
Definition profile_line (mem : snapshot) : string :=
  if truthy (prof mem)
  then "User profile: " +:+ stringify_val (prof mem) +:+ nl
  else EmptyString.

(** [`${profile}Conversation so far:\n${history}\nUser: ${userMsg}\nAssistant:`] *)
Definition chat_prompt (mem : snapshot) (userMsg : string) : string :=
  profile_line mem +:+ "Conversation so far:" +:+ nl +:+ history_text mem
  +:+ nl +:+ "User: " +:+ userMsg +:+ nl +:+ "Assistant:".

(** [`User: ${userMsg}\nAssistant: ${answer}`] *)
Definition turn_item (userMsg answer : string) : string :=
  "User: " +:+ userMsg +:+ nl +:+ "Assistant: " +:+ answer.

(** ** Promises, outbound calls and the host *)

(** The value carried by a rejected promise (an exception message). *)
Definition exn : Type := string.

Inductive outcome (A : Type) : Type :=
| Resolved (a : A)
| Rejected (e : exn).
Arguments Resolved {A} a.
Arguments Rejected {A} e.

(** The [Response] of [stub.fetch]: its status, and what [r.json()] gives
    at the type the handler reads it ([Rejected] when the body is not
    JSON). *)
Record response : Type := Response {
  resp_status : Z;
  resp_json : outcome snapshot
}.

(** A Workflow instance handle: [instance.id]. *)
Record instance : Type := Instance { inst_id : string }.

(** The awaited outbound calls.  [DoFetch name url payload] is
    [stub.fetch(url, { method: "POST", body: JSON.stringify(payload) })] on
    the stub [MEMORY_DO.get(MEMORY_DO.idFromName(name))]. *)
Inductive call : Type :=
| DoFetch (name url : string) (payload : json)
| LlmChat (prompt : string)
| FlowCreate (url : option string)
| FlowGet (id : string)
| InstanceStatus (inst : instance).

(** The request body that [DoFetch] puts on the wire. *)
Definition wire_body (c : call) : option string :=
  match c with
  | DoFetch _ _ payload => Some (stringify payload)
  | _ => None
  end.

(** The bindings of the Worker ([c.env]) and the imported [llmChat]: how
    each call is answered, given the calls already made by the request. *)
Record Host : Type := {
  stub_fetch : list call -> string -> string -> json -> outcome response;
  llmChat : list call -> string -> outcome string;
  flow_create : list call -> option string -> outcome instance;
  flow_get : list call -> string -> outcome instance;
  instance_status : list call -> instance -> outcome json
}.

(** An [async] body: it threads the log of calls made so far (oldest
    first) and stops at the first rejected [await]. *)
Definition M (A : Type) : Type := list call -> outcome A * list call.

#[export] Instance M_ret : MRet M := fun A a log => (Resolved a, log).

#[export] Instance M_bind : MBind M := fun A B f m log =>
  match m log with
  | (Resolved a, log') => f a log'
  | (Rejected e, log') => (Rejected e, log')
  end.

(** [await] of an outbound call: the call is logged, then its promise is
    settled by the host. *)
Definition await_call {A : Type} (c : call) (settle : list call -> outcome A) : M A :=
  fun log => (settle log, (log ++ [c])%list).

(** [await] of a promise that involves no further call, such as
    [r.json()]. *)
Definition await {A : Type} (o : outcome A) : M A := fun log => (o, log).

(** ** Hono responses *)

Inductive http_body : Type :=
| TextBody (s : string)
| JsonBody (j : json).

Record http_response : Type := HttpResponse {
  status : Z;
  body : http_body
}.

(** [c.json(v)] *)
Definition c_json (v : json) : http_response := {| status := 200; body := JsonBody v |}.

(** [c.text(s, code)] *)
Definition c_text (s : string) (code : Z) : http_response :=
  {| status := code; body := TextBody s |}.

(** Hono's default error handler, the one in force since [index.ts]
    installs no [app.onError]: an exception that escapes a handler becomes
    a 500. *)
Definition on_error (e : exn) : http_response := c_text "Internal Server Error" 500.

Section Routes.
Variable h : Host.

Definition do_fetch (name url : string) (payload : json) : M response :=
  await_call (DoFetch name url payload) (fun log => stub_fetch h log name url payload).

Definition llm (prompt : string) : M string :=
  await_call (LlmChat prompt) (fun log => llmChat h log prompt).

Definition create_flow (url : option string) : M instance :=
  await_call (FlowCreate url) (fun log => flow_create h log url).

Definition get_flow (id : string) : M instance :=
  await_call (FlowGet id) (fun log => flow_get h log id).

Definition status_of (inst : instance) : M json :=
  await_call (InstanceStatus inst) (fun log => instance_status h log inst).

(** [{ op: "get", userId }] *)
Definition get_payload (userId : string) : json :=
  JObj [("op", JStr "get"); ("userId", JStr userId)].

(** [{ op: "append", userId, item }] *)
Definition append_payload (userId item : string) : json :=
  JObj [("op", JStr "append"); ("userId", JStr userId); ("item", JStr item)].

(** [app.post("/chat", ...)], from the destructured [userId] and
    [userMsg] on. *)
Definition chat (userId userMsg : string) : M http_response :=
  r ← do_fetch userId "https://do/get" (get_payload userId);
  mem ← await (resp_json r);
  let prompt := chat_prompt mem userMsg in
  answer ← llm prompt;
  _ ← do_fetch userId "https://do/append"
        (append_payload userId (turn_item userMsg answer));
  mret (c_json (JObj [("answer", JStr answer)])).

(** [app.post("/summarize", ...)], from the destructured [url] on
    ([None] when the body has no [url]). *)
Definition summarize (url : option string) : M http_response :=
  inst ← create_flow url;
  st ← status_of inst;
  mret (c_json (JObj [("id", JStr (inst_id inst)); ("status", st)])).

(** [app.get("/summarize/status", ...)]; [id] is [c.req.query("id")],
    [None] when the parameter is not in the query string.  [!id] holds
    of [undefined] and of the empty string. *)
Definition summarize_status (id : option string) : M http_response :=
  match id with
  | None => mret (c_text "missing id" 400)
  | Some i =>
      if String.eqb i EmptyString then mret (c_text "missing id" 400)
      else
        inst ← get_flow i;
        st ← status_of inst;
        mret (c_json st)
  end.

(** One request: the handler starts with no call made. *)
Definition run {A : Type} (m : M A) : outcome A * list call := m [].

(** What the client receives, and the calls the request made. *)
Definition serve (m : M http_response) : http_response * list call :=
  match run m with
  | (Resolved resp, log) => (resp, log)
  | (Rejected e, log) => (on_error e, log)
  end.
End Routes.

Arguments run {A} m.

(** The two calls of [/chat] to the Durable Object. *)
Definition get_call (userId : string) : call :=
  DoFetch userId "https://do/get" (get_payload userId).

Definition append_call (userId item : string) : call :=
  DoFetch userId "https://do/append" (append_payload userId item).

(** Property lookup on a parsed object: [payload[key]]. *)
Fixpoint assoc (key : string) (fields : list (string * json)) : jsval :=
  match fields with
  | [] => None
  | (k, v) :: rest => if String.eqb k key then Some v else assoc key rest
  end.

Definition field (key : string) (v : json) : jsval :=
  match v with
  | JObj fields => assoc key fields
  | _ => None
  end.

(** The calls that ask the Memory Actor to append. *)
Definition is_append (c : call) : bool :=
  match c with
  | DoFetch _ _ payload =>
      match field "op" payload with
      | Some (JStr op) => String.eqb op "append"
      | _ => false
      end
  | _ => false
  end.

(** The calls that reach the language model. *)
Definition is_inference (c : call) : bool :=
  match c with
  | LlmChat _ => true
  | _ => false
  end.

(** The calls that reach the Workflow Engine. *)
Definition is_workflow (c : call) : bool :=
  match c with
  | FlowCreate _ | FlowGet _ | InstanceStatus _ => true
  | _ => false
  end.

(** ** The Memory Actor *)

(** Modelled from the spec: the Memory Actor ([MemoryDO], imported from
    [./memory], whose source is not at hand).  One Memory Record per user
    identifier, holding a profile that may be absent and an append-only
    history, oldest first; a record that does not exist yet reads as the
    default one. *)
Record MemoryRecord : Type := {
  profile : jsval;
  history : list string
}.

Definition fresh_record : MemoryRecord := {| profile := None; history := [] |}.

Definition record_of (s : gmap string MemoryRecord) (userId : string) : MemoryRecord :=
  default fresh_record (s !! userId).

(** Modelled from the spec: the message protocol of the Memory Actor,
    [{ op: "get", userId }] and [{ op: "append", userId, item }]. *)
Inductive message : Type :=
| MsgGet (userId : string)
| MsgAppend (userId item : string).

Inductive reply : Type :=
| Snap (s : snapshot)
| Ack.

(** Modelled from the spec: the Memory Actor handles one message at a time
    (section 4.1: [get] returns the current snapshot, [append] adds the
    item at the end of the history and creates the record if absent). *)
Definition actor_step (s : gmap string MemoryRecord) (m : message)
  : gmap string MemoryRecord * reply :=
  match m with
  | MsgGet u =>
      (s, Snap {| prof := profile (record_of s u);
                  hist := Some (history (record_of s u)) |})
  | MsgAppend u item =>
      (<[u := {| profile := profile (record_of s u);
                 history := (history (record_of s u) ++ [item])%list |}]> s,
       Ack)
  end.

(** Modelled from the spec: the actor is a single execution context
    (section 5), so the messages that arrive are handled in arrival order,
    each one to completion. *)
Fixpoint actor_run (s : gmap string MemoryRecord) (arrivals : list message)
  : gmap string MemoryRecord * list reply :=
  match arrivals with
  | [] => (s, [])
  | m :: rest =>
      let '(s1, r) := actor_step s m in
      let '(s2, rs) := actor_run s1 rest in
      (s2, r :: rs)
  end.

(** The items that [arrivals] appends to the history of [userId]. *)
Fixpoint appended (userId : string) (arrivals : list message) : list string :=
  match arrivals with
  | [] => []
  | MsgAppend u item :: rest =>
      if String.eqb u userId then item :: appended userId rest
      else appended userId rest
  | MsgGet _ :: rest => appended userId rest
  end.

(** Concurrent callers: each caller submits its own sequence of messages;
    an arrival order takes, at every step, the next message of some
    caller. *)
Inductive interleaving {A : Type} : list (list A) -> list A -> Prop :=
| interleaving_done (qs : list (list A)) :
    Forall (fun q => q = []) qs -> interleaving qs []
| interleaving_step (qs : list (list A)) (i : nat) (x : A) (q l : list A) :
    qs !! i = Some (x :: q) ->
    interleaving (<[i := q]> qs) l ->
    interleaving qs (x :: l).

(** Reading a request body back into a message of the protocol. *)
Definition decode_message (payload : json) : option message :=
  match field "op" payload, field "userId" payload with
  | Some (JStr op), Some (JStr u) =>
      if String.eqb op "get" then Some (MsgGet u)
      else if String.eqb op "append" then
        match field "item" payload with
        | Some (JStr item) => Some (MsgAppend u item)
        | _ => None
        end
      else None
  | _, _ => None
  end.

(** The effect of one logged call on the records. *)
Definition deliver (s : gmap string MemoryRecord) (c : call) : gmap string MemoryRecord :=
  match c with
  | DoFetch _ _ payload =>
      match decode_message payload with
      | Some m => fst (actor_step s m)
      | None => s
      end
  | _ => s
  end.

(** The records once every call of a request log has been handled. *)
Definition store_after (s : gmap string MemoryRecord) (log : list call)
  : gmap string MemoryRecord :=
  fold_left deliver log s.

(** ** Hosts to run the routes on *)

(** A host that answers from a script, whatever it is asked. *)
Definition scripted_host (get_reply : outcome response) (llm_reply : outcome string)
    (append_reply : outcome response) : Host :=
  {| stub_fetch := fun _ _ url _ =>
       if String.eqb url "https://do/get" then get_reply else append_reply;
     llmChat := fun _ _ => llm_reply;
     flow_create := fun _ _ => Resolved {| inst_id := "wf-1" |};
     flow_get := fun _ id => Resolved {| inst_id := id |};
     instance_status := fun _ _ => Resolved (JStr "Queued") |}.

(** A host whose Durable Object is the Memory Actor above, started on the
    records [s0], and whose model is the function [generate]. *)
Definition actor_host (s0 : gmap string MemoryRecord) (generate : string -> outcome string)
  : Host :=
  {| stub_fetch := fun log _ _ payload =>
       match decode_message payload with
       | Some m =>
           match snd (actor_step (store_after s0 log) m) with
           | Snap sn => Resolved {| resp_status := 200; resp_json := Resolved sn |}
           | Ack =>
               Resolved {| resp_status := 200;
                           resp_json := Resolved {| prof := None; hist := None |} |}
           end
       | None => Rejected "bad request"
       end;
     llmChat := fun _ prompt => generate prompt;
     flow_create := fun _ _ => Resolved {| inst_id := "wf-1" |};
     flow_get := fun _ id => Resolved {| inst_id := id |};
     instance_status := fun _ _ => Resolved (JStr "Queued") |}.

Definition ok_response (mem : snapshot) : response :=
  {| resp_status := 200; resp_json := Resolved mem |}.

(** The handler has read the snapshot [mem] of [userId]: the [get] call
    resolved and its body was read as [mem]. *)
Definition memory_read (h : Host) (userId : string) (mem : snapshot) : Prop :=
  exists r : response,
    stub_fetch h [] userId "https://do/get" (get_payload userId) = Resolved r
    /\ resp_json r = Resolved mem.

(** The [get] step failed: the fetch rejected, or the body of its response
    could not be read as JSON. *)
Definition memory_read_fails (h : Host) (userId : string) (e : exn) : Prop :=
  stub_fetch h [] userId "https://do/get" (get_payload userId) = Rejected e
  \/ exists r : response,
       stub_fetch h [] userId "https://do/get" (get_payload userId) = Resolved r
       /\ resp_json r = Rejected e.

(** A snapshot with a profile and no history yet. *)
Definition ada_snapshot : snapshot :=
  {| prof := Some (JObj [("name", JStr "Ada")]); hist := Some [] |}.

(** Hosts for the concrete runs below. *)
Definition ada_host : Host :=
  scripted_host (Resolved (ok_response ada_snapshot)) (Resolved "hi")
                (Resolved (ok_response empty_snapshot)).

Definition fresh_host : Host :=
  scripted_host (Resolved (ok_response empty_snapshot)) (Resolved "hi")
                (Resolved (ok_response empty_snapshot)).

Definition model_down_host : Host :=
  scripted_host (Resolved (ok_response empty_snapshot)) (Rejected "InferenceError")
                (Resolved (ok_response empty_snapshot)).

Definition append_down_host : Host :=
  scripted_host (Resolved (ok_response empty_snapshot)) (Resolved "hi")
                (Rejected "StorageUnavailable").

Definition get_down_host : Host :=
  scripted_host (Rejected "StorageUnavailable") (Resolved "hi")
                (Resolved (ok_response empty_snapshot)).

(** Two callers of the actor of [u1], and one order in which their
    messages can arrive. *)
Definition two_callers : list (list message) :=
  [[MsgAppend "u1" "a1"; MsgGet "u1"; MsgAppend "u1" "a2"];
   [MsgAppend "u1" "b1"]].

Definition one_arrival_order : list message :=
  [MsgAppend "u1" "a1"; MsgAppend "u1" "b1"; MsgGet "u1"; MsgAppend "u1" "a2"].

(** ** The CORS handlers and the health check *)

(** Header names are case-insensitive: a [Headers] object keeps them in
    lower case. *)
Definition lower_char (c : ascii) : ascii :=
  let n := nat_of_ascii c in
  if Nat.leb 65 n && Nat.leb n 90 then ascii_of_nat (n + 32) else c.

Fixpoint lower (s : string) : string :=
  match s with
  | EmptyString => EmptyString
  | String c rest => String (lower_char c) (lower rest)
  end.

(** The part of Hono's context [c] the handlers use: [c.req.method] and
    the headers set so far for the response. *)
Record context : Type := Context {
  req_method : string;
  res_headers : gmap string string
}.

(** [c.header(name, value)]: sets the header, replacing a value set
    before under the same name. *)
Definition c_header (name value : string) (c : context) : context :=
  {| req_method := req_method c;
     res_headers := <[lower name := value]> (res_headers c) |}.

(** The value the response carries for a header. *)
Definition get_header (name : string) (c : context) : option string :=
  res_headers c !! lower name.

(** A handler that is given the rest of the chain as [next]. *)
Definition middleware : Type :=
  context -> (context -> M (context * http_response)) -> M (context * http_response).

(** [app.options("*", (c) => ...)]: it answers by itself and is given no
    [next]. *)
Definition options_all (c : context) : M (context * http_response) :=
  let c := c_header "Access-Control-Allow-Origin" "*" c in
  let c := c_header "Access-Control-Allow-Methods" "GET,POST,DELETE,OPTIONS" c in
  let c := c_header "Access-Control-Allow-Headers" "Content-Type, Authorization" c in
  let c := c_header "Access-Control-Max-Age" "86400" c in
  mret (c, c_text EmptyString 204).

(** The three headers [app.all("*", ...)] sets. *)
Definition all_headers (c : context) : context :=
  let c := c_header "access-control-allow-origin" "*" c in
  let c := c_header "access-control-allow-methods" "GET,POST,OPTIONS" c in
  c_header "access-control-allow-headers" "content-type" c.

(** [app.all("*", async (c, next) => ...)] *)
Definition all_cors : middleware := fun c next =>
  let c := all_headers c in
  if String.eqb (req_method c) "OPTIONS" then mret (c, c_text EmptyString 204)
  else next c.

(** [app.get("/healthz", (c) => c.text("ok"))] *)
Definition healthz : M http_response := mret (c_text "ok" 200).

(** A route handler as the last element of a chain: it leaves the
    headers as they are. *)
Definition as_last (handler : M http_response) (c : context)
  : M (context * http_response) :=
  resp ← handler; mret (c, resp).

(** ** Views of a host and of strings used in the properties *)

(** The same host, with the status of every Durable Object response
    changed by [f]. *)
Definition restatus (f : Z -> Z) (h : Host) : Host :=
  {| stub_fetch := fun log name url payload =>
       match stub_fetch h log name url payload with
       | Resolved r => Resolved {| resp_status := f (resp_status r); resp_json := resp_json r |}
       | Rejected e => Rejected e
       end;
     llmChat := llmChat h;
     flow_create := flow_create h;
     flow_get := flow_get h;
     instance_status := instance_status h |}.

(** No character of [s] is a control character (below U+0020); a newline
    is one. *)
Fixpoint no_control (s : string) : bool :=
  match s with
  | EmptyString => true
  | String c rest => Nat.leb 32 (nat_of_ascii c) && no_control rest
  end.

(** The calls made to the Durable Object. *)
Definition is_do_fetch (c : call) : bool :=
  match c with
  | DoFetch _ _ _ => true
  | _ => false
  end.

(** A host whose Workflow Engine knows no instance, or cannot tell a
    status. *)
Definition engine_down_host (create_ok : bool) : Host :=
  {| stub_fetch := fun _ _ _ _ => Rejected "unused";
     llmChat := fun _ _ => Rejected "unused";
     flow_create := fun _ _ =>
       if create_ok then Resolved {| inst_id := "wf-7" |} else Rejected "engine down";
     flow_get := fun _ _ => Rejected "instance not found";
     instance_status := fun _ _ => Rejected "status unavailable" |}.

Definition post_context : context := {| req_method := "POST"; res_headers := ∅ |}.

Definition preflight_context : context :=
  {| req_method := "OPTIONS";
     res_headers := {[ "access-control-allow-methods" := "GET,POST,DELETE,OPTIONS" ]} |}.

(** A call is addressed to the Durable Object of [userId] and names
    [userId] in its body, or is no Durable Object call. *)
Definition addressed_to (userId : string) (c : call) : Prop :=
  match c with
  | DoFetch name _ payload => name = userId /\ field "userId" payload = Some (JStr userId)
  | _ => True
  end.

(** ** Reading the body of [POST /summarize] *)

(** What [await c.req.json<{ url: string }>()] followed by the
    destructuring [const { url } = ...] can give: the promise rejects when
    the body is not JSON; the JSON value [null] cannot be destructured (a
    [TypeError]); otherwise [url] is the property of that name, [None]
    when the body has none. *)
Inductive body_reading : Type :=
| BodyUnreadable (e : exn)
| BodyNull
| BodyObject (url : option string).

Definition destructure_url (b : body_reading) : outcome (option string) :=
  match b with
  | BodyUnreadable e => Rejected e
  | BodyNull => Rejected "TypeError"
  | BodyObject url => Resolved url
  end.

(** [app.post("/summarize", ...)] from the request on: the body is read
    and destructured, then the instance is created. *)
Definition summarize_route (h : Host) (b : body_reading) : M http_response :=
  url ← await (destructure_url b);
  summarize h url.

(** ** Running the routes on concrete inputs *)

Example chat_first_turn :
  serve (chat (actor_host ∅ (fun _ => Resolved "hi")) "u1" "hello")
  = (c_json (JObj [("answer", JStr "hi")]),
     [get_call "u1";
      LlmChat ("Conversation so far:" +:+ nl +:+ nl +:+ "User: hello" +:+ nl +:+ "Assistant:");
      append_call "u1" ("User: hello" +:+ nl +:+ "Assistant: hi")]).
Proof. vm_compute. reflexivity. Qed.

Example chat_second_turn :
  let s1 := store_after ∅ (snd (run (chat (actor_host ∅ (fun _ => Resolved "hi")) "u1" "hello"))) in
  history (record_of s1 "u1") = ["User: hello" +:+ nl +:+ "Assistant: hi"]
  /\ snd (run (chat (actor_host s1 (fun _ => Resolved "fine")) "u1" "how are you")) !! 1%nat
     = Some (LlmChat ("Conversation so far:" +:+ nl +:+ "User: hello" +:+ nl
                      +:+ "Assistant: hi" +:+ nl +:+ "User: how are you" +:+ nl
                      +:+ "Assistant:")).
Proof. vm_compute. split; reflexivity. Qed.

Example wire_body_append :
  wire_body (append_call "u1" ("User: hello" +:+ nl +:+ "Assistant: hi"))
  = Some ("{" +:+ quote_string "op" +:+ ":" +:+ quote_string "append" +:+ ","
          +:+ quote_string "userId" +:+ ":" +:+ quote_string "u1" +:+ ","
          +:+ quote_string "item" +:+ ":"
          +:+ String dquote ("User: hello" +:+ String backslash "nAssistant: hi"
                             +:+ String dquote EmptyString)
          +:+ "}").
Proof. vm_compute. reflexivity. Qed.

Example status_poll :
  serve (summarize_status (scripted_host (Rejected "x") (Rejected "x") (Rejected "x")) (Some "wf-1"))
  = (c_json (JStr "Queued"), [FlowGet "wf-1"; InstanceStatus {| inst_id := "wf-1" |}]).
Proof. vm_compute. reflexivity. Qed.

(** * Properties *)

(** ** Strings *)

Lemma append_cons (ch : ascii) (a b : string) :
  String ch a +:+ b = String ch (a +:+ b).
Proof. reflexivity. Qed.

Lemma append_empty_l (a : string) : EmptyString +:+ a = a.
Proof. reflexivity. Qed.

Lemma append_assoc (a b c : string) : (a +:+ b) +:+ c = a +:+ (b +:+ c).
Proof.
  induction a as [|ch a IH]; [reflexivity|].
  now rewrite !append_cons, IH.
Qed.

Lemma append_empty_r (a : string) : a +:+ EmptyString = a.
Proof.
  induction a as [|ch a IH]; [reflexivity|].
  now rewrite append_cons, IH.
Qed.

(** Joining puts the separator before every element but the first, in
    list order. *)
Lemma join_cons (sep x : string) (xs : list string) :
  join sep (x :: xs) = x +:+ fold_right (fun y acc => sep +:+ y +:+ acc) EmptyString xs.
Proof.
  unfold join. revert x. induction xs as [|y ys IH]; intros x.
  - simpl. now rewrite append_empty_r.
  - change (sep_by sep (x :: y :: ys)) with (x +:+ sep +:+ sep_by sep (y :: ys)).
    now rewrite IH.
Qed.

Lemma join_nil (sep : string) : join sep [] = EmptyString.
Proof. reflexivity. Qed.

(** ** The prompt *)

Lemma profile_line_falsy (mem : snapshot) :
  truthy (prof mem) = false -> profile_line mem = EmptyString.
Proof. unfold profile_line. now intros ->. Qed.

Lemma profile_line_truthy (mem : snapshot) :
  truthy (prof mem) = true ->
  exists p : json,
    prof mem = Some p /\ profile_line mem = "User profile: " +:+ stringify p +:+ nl.
Proof.
  unfold profile_line. intros Ht. rewrite Ht.
  destruct (prof mem) as [p|] eqn:Hp; [|discriminate Ht].
  exists p. split; reflexivity.
Qed.

Lemma chat_prompt_ends (mem : snapshot) (userMsg : string) :
  ends_with ("User: " +:+ userMsg +:+ nl +:+ "Assistant:") (chat_prompt mem userMsg).
Proof.
  exists (profile_line mem +:+ "Conversation so far:" +:+ nl +:+ history_text mem +:+ nl).
  unfold chat_prompt. now rewrite !append_assoc.
Qed.

(** The falsy JSON values are exactly [null], [false], [0] and the empty
    string. *)
Lemma falsy_values (p : json) :
  truthy (Some p) = false <->
  p = JNull \/ p = JBool false \/ p = JNum 0 \/ p = JStr EmptyString.
Proof.
  split.
  - destruct p as [|b|n|s| |]; simpl; intros Hf; try discriminate Hf.
    + now left.
    + right; left. now destruct b.
    + right; right; left. f_equal. apply Z.eqb_eq. now destruct (Z.eqb n 0).
    + right; right; right. f_equal. destruct s; [reflexivity | discriminate Hf].
  - intros [-> | [-> | [-> | ->]]]; reflexivity.
Qed.

(** ** The [/chat] handler, run *)

(** Every way a [/chat] request can go, by the answers of the host. *)
Lemma run_chat (h : Host) (userId userMsg : string) :
  run (chat h userId userMsg) =
  match stub_fetch h [] userId "https://do/get" (get_payload userId) with
  | Rejected e => (Rejected e, [get_call userId])
  | Resolved r =>
      match resp_json r with
      | Rejected e => (Rejected e, [get_call userId])
      | Resolved mem =>
          let prompt := chat_prompt mem userMsg in
          match llmChat h [get_call userId] prompt with
          | Rejected e => (Rejected e, [get_call userId; LlmChat prompt])
          | Resolved answer =>
              let item := turn_item userMsg answer in
              let log := [get_call userId; LlmChat prompt; append_call userId item] in
              match stub_fetch h [get_call userId; LlmChat prompt] userId
                      "https://do/append" (append_payload userId item) with
              | Rejected e => (Rejected e, log)
              | Resolved _ => (Resolved (c_json (JObj [("answer", JStr answer)])), log)
              end
          end
      end
  end.
Proof.
  unfold run, chat, mbind, M_bind, do_fetch, llm, await_call, await, mret, M_ret,
    get_call, append_call.
  cbn [app].
  destruct (stub_fetch h [] userId "https://do/get" (get_payload userId)) as [r|e];
    [|reflexivity].
  destruct (resp_json r) as [mem|e]; [|reflexivity].
  cbn [app].
  destruct (llmChat h _ (chat_prompt mem userMsg)) as [answer|e]; [|reflexivity].
  cbn [app].
  destruct (stub_fetch h _ userId "https://do/append" _) as [r'|e]; reflexivity.
Qed.

(** Once the snapshot is read, the prompt built from it is what reaches
    the model, as the second call of the request. *)
Lemma chat_sends_prompt (h : Host) (userId userMsg : string) (mem : snapshot) :
  memory_read h userId mem ->
  exists rest : list call,
    snd (run (chat h userId userMsg))
    = get_call userId :: LlmChat (chat_prompt mem userMsg) :: rest.
Proof.
  intros (r & Hget & Hjson). rewrite run_chat, Hget, Hjson. cbv zeta.
  destruct (llmChat h _ _) as [answer|e]; [|now exists []].
  destruct (stub_fetch h _ userId "https://do/append" _); now eexists.
Qed.


(** ** C1: the prompt *)

(** C1, as stated, fails: a snapshot with an empty history and a profile
    makes the handler send a prompt that opens with the profile line. *)
Lemma chat_prompt_profile_with_empty_history :
  hist_or_empty ada_snapshot = []
  /\ chat_prompt ada_snapshot "hello"
     = "User profile: {" +:+ quote_string "name" +:+ ":" +:+ quote_string "Ada" +:+ "}"
       +:+ nl +:+ "Conversation so far:" +:+ nl +:+ nl +:+ "User: hello" +:+ nl
       +:+ "Assistant:"
  /\ snd (run (chat ada_host "u1" "hello")) !! 1%nat
     = Some (LlmChat (chat_prompt ada_snapshot "hello"))
  /\ profile_line ada_snapshot <> EmptyString.
Proof. vm_compute. repeat split; try reflexivity. discriminate. Qed.

(** C1 (amended): once the snapshot [mem] of the user is read, the prompt
    sent to inference is: the profile line, rendered exactly when the
    profile is truthy (hence only if it is present, and whatever the
    history is), then the header [Conversation so far:], then the stored
    turns in stored order, each on a new line, then the new user message
    and the assistant cue.  The prompt always ends with
    [User: <userMsg>\nAssistant:]; and when the history is empty and the
    profile is absent or falsy the prompt has no profile line and no
    history line. *)
Theorem chat_prompt_construction (h : Host) (userId userMsg : string) (mem : snapshot) :
  memory_read h userId mem ->
  (exists rest : list call,
     snd (run (chat h userId userMsg))
     = get_call userId :: LlmChat (chat_prompt mem userMsg) :: rest)
  /\ chat_prompt mem userMsg
     = match prof mem with
       | Some p =>
           if truthy (Some p) then "User profile: " +:+ stringify p +:+ nl
           else EmptyString
       | None => EmptyString
       end
       +:+ "Conversation so far:" +:+ nl
       +:+ match hist mem with
           | Some (t :: ts) =>
               t +:+ fold_right (fun y acc => nl +:+ y +:+ acc) EmptyString ts
           | Some [] => EmptyString
           | None => EmptyString
           end
       +:+ nl +:+ "User: " +:+ userMsg +:+ nl +:+ "Assistant:"
  /\ (forall p : json,
        prof mem = Some p ->
        truthy (Some p) = true ->
        starts_with ("User profile: " +:+ stringify p +:+ nl +:+ "Conversation so far:" +:+ nl)
          (chat_prompt mem userMsg))
  /\ (truthy (prof mem) = false ->
      starts_with ("Conversation so far:" +:+ nl) (chat_prompt mem userMsg))
  /\ (prof mem = None ->
      starts_with ("Conversation so far:" +:+ nl) (chat_prompt mem userMsg))
  /\ ends_with ("User: " +:+ userMsg +:+ nl +:+ "Assistant:") (chat_prompt mem userMsg)
  /\ (hist mem = Some [] \/ hist mem = None ->
      truthy (prof mem) = false ->
      chat_prompt mem userMsg
      = "Conversation so far:" +:+ nl +:+ nl +:+ "User: " +:+ userMsg +:+ nl
        +:+ "Assistant:").
Proof.
  intros Hread.
  assert (Hhist : history_text mem
                  = match hist mem with
                    | Some (t :: ts) =>
                        t +:+ fold_right (fun y acc => nl +:+ y +:+ acc) EmptyString ts
                    | Some [] => EmptyString
                    | None => EmptyString
                    end).
  { unfold history_text, hist_or_empty.
    destruct (hist mem) as [[|t ts]|]; [reflexivity | apply join_cons | reflexivity]. }
  assert (Hprof : profile_line mem
                  = match prof mem with
                    | Some p =>
                        if truthy (Some p) then "User profile: " +:+ stringify p +:+ nl
                        else EmptyString
                    | None => EmptyString
                    end).
  { unfold profile_line. now destruct (prof mem) as [p|]. }
  assert (Hfalsy : truthy (prof mem) = false ->
                   chat_prompt mem userMsg
                   = "Conversation so far:" +:+ nl +:+ history_text mem +:+ nl
                     +:+ "User: " +:+ userMsg +:+ nl +:+ "Assistant:").
  { intros Hf. unfold chat_prompt. now rewrite (profile_line_falsy _ Hf). }
  split; [now apply chat_sends_prompt|].
  split; [unfold chat_prompt; now rewrite Hprof, Hhist|].
  split.
  { intros p Hp Ht. unfold chat_prompt. rewrite Hprof, Hp, Ht.
    eexists. rewrite !append_assoc. reflexivity. }
  split.
  { intros Hf. rewrite (Hfalsy Hf). eexists. rewrite !append_assoc. reflexivity. }
  split.
  { intros Hnone. rewrite Hfalsy by now rewrite Hnone.
    eexists. rewrite !append_assoc. reflexivity. }
  split; [apply chat_prompt_ends|].
  intros Hempty Hf. rewrite (Hfalsy Hf), Hhist.
  destruct Hempty as [-> | ->]; reflexivity.
Qed.

Lemma chat_prompt_construction_witness :
  chat_prompt {| prof := Some (JBool true); hist := Some ["t1"; "t2"] |} "hello"
  = "User profile: true" +:+ nl +:+ "Conversation so far:" +:+ nl
    +:+ "t1" +:+ nl +:+ "t2" +:+ nl +:+ "User: hello" +:+ nl +:+ "Assistant:".
Proof.
  refine (proj1 (proj2
    (chat_prompt_construction
       (scripted_host
          (Resolved (ok_response {| prof := Some (JBool true); hist := Some ["t1"; "t2"] |}))
          (Resolved "hi") (Resolved (ok_response empty_snapshot)))
       "u1" "hello" {| prof := Some (JBool true); hist := Some ["t1"; "t2"] |} _))).
  eexists. split; reflexivity.
Defined.

(** ** C2: the append *)

(** C2, as stated, fails: inference has returned [pong] and the one
    append is issued with the right item, but the append call rejects and
    the result of the handler is not [{ answer }]: the client gets a 500. *)
Lemma chat_answer_withheld_when_append_rejects :
  llmChat (scripted_host (Resolved (ok_response empty_snapshot)) (Resolved "pong")
             (Rejected "StorageUnavailable"))
    [get_call "u2"] (chat_prompt empty_snapshot "ping")
  = Resolved "pong"
  /\ run (chat (scripted_host (Resolved (ok_response empty_snapshot)) (Resolved "pong")
                  (Rejected "StorageUnavailable")) "u2" "ping")
     = (Rejected "StorageUnavailable",
        [get_call "u2"; LlmChat (chat_prompt empty_snapshot "ping");
         append_call "u2" ("User: ping" +:+ nl +:+ "Assistant: pong")])
  /\ fst (serve (chat (scripted_host (Resolved (ok_response empty_snapshot))
                        (Resolved "pong") (Rejected "StorageUnavailable")) "u2" "ping"))
     = {| status := 500; body := TextBody "Internal Server Error" |}
  /\ fst (serve (chat (scripted_host (Resolved (ok_response empty_snapshot))
                        (Resolved "pong") (Rejected "StorageUnavailable")) "u2" "ping"))
     <> c_json (JObj [("answer", JStr "pong")]).
Proof. vm_compute. repeat split; try reflexivity. discriminate. Qed.

(** C2 (amended): once the snapshot is read and inference has returned
    [answer], the request makes exactly three calls, the read, the
    inference and one append to the Memory Actor of [userId], whose item is
    [User: <userMsg>\nAssistant: <answer>]; no other call is made.  The
    handler returns [{ answer }] when the append call resolves, whatever
    its status; when the append call rejects, the client gets a 500
    instead. *)
Theorem chat_appends_turn_once (h : Host) (userId userMsg answer : string)
    (mem : snapshot) :
  memory_read h userId mem ->
  llmChat h [get_call userId] (chat_prompt mem userMsg) = Resolved answer ->
  let item := "User: " +:+ userMsg +:+ nl +:+ "Assistant: " +:+ answer in
  let log := snd (run (chat h userId userMsg)) in
  log = [get_call userId; LlmChat (chat_prompt mem userMsg);
         DoFetch userId "https://do/append"
           (JObj [("op", JStr "append"); ("userId", JStr userId); ("item", JStr item)])]
  /\ filter (fun c => is_append c = true) log = [append_call userId item]
  /\ (forall s : gmap string MemoryRecord,
        store_after s log
        = <[userId := {| profile := profile (record_of s userId);
                         history := (history (record_of s userId) ++ [item])%list |}]> s)
  /\ (forall r : response,
        stub_fetch h [get_call userId; LlmChat (chat_prompt mem userMsg)] userId
          "https://do/append" (append_payload userId item) = Resolved r ->
        serve (chat h userId userMsg)
        = ({| status := 200; body := JsonBody (JObj [("answer", JStr answer)]) |}, log))
  /\ (forall e : exn,
        stub_fetch h [get_call userId; LlmChat (chat_prompt mem userMsg)] userId
          "https://do/append" (append_payload userId item) = Rejected e ->
        run (chat h userId userMsg) = (Rejected e, log)
        /\ serve (chat h userId userMsg)
           = ({| status := 500; body := TextBody "Internal Server Error" |}, log)).
Proof.
  intros (r0 & Hget & Hjson) Hllm item log.
  change item with (turn_item userMsg answer) in *. clear item.
  pose proof (run_chat h userId userMsg) as Hrun.
  rewrite Hget, Hjson in Hrun. cbv zeta in Hrun. rewrite Hllm in Hrun.
  assert (Hlog : log = [get_call userId; LlmChat (chat_prompt mem userMsg);
                        append_call userId (turn_item userMsg answer)]).
  { unfold log. rewrite Hrun.
    destruct (stub_fetch h _ userId "https://do/append" _); reflexivity. }
  split; [exact Hlog|].
  split; [rewrite Hlog; reflexivity|].
  split; [intros s; rewrite Hlog; reflexivity|].
  split.
  - intros r Happ. rewrite Hlog. unfold serve. rewrite Hrun, Happ. reflexivity.
  - intros e Happ. rewrite Hlog. unfold serve. rewrite Hrun, Happ. split; reflexivity.
Qed.

Lemma chat_appends_turn_once_witness :
  snd (run (chat fresh_host "u1" "hello"))
  = [get_call "u1";
     LlmChat (chat_prompt empty_snapshot "hello");
     DoFetch "u1" "https://do/append"
       (JObj [("op", JStr "append"); ("userId", JStr "u1");
              ("item", JStr ("User: hello" +:+ nl +:+ "Assistant: hi"))])].
Proof.
  refine (proj1 (chat_appends_turn_once fresh_host "u1" "hello" "hi" empty_snapshot _ _)).
  - exists (ok_response empty_snapshot). split; reflexivity.
  - reflexivity.
Defined.

(** ** C4: inference failure *)

(** C4: when the inference call fails, the handler stops there: the client
    gets a 500, the request has made the read and the inference call only,
    no append is issued, and the records of the Memory Actor are what they
    were. *)
Theorem inference_failure_aborts (h : Host) (userId userMsg : string)
    (mem : snapshot) (e : exn) :
  memory_read h userId mem ->
  llmChat h [get_call userId] (chat_prompt mem userMsg) = Rejected e ->
  run (chat h userId userMsg)
  = (Rejected e, [get_call userId; LlmChat (chat_prompt mem userMsg)])
  /\ status (fst (serve (chat h userId userMsg))) = 500
  /\ filter (fun c => is_append c = true) (snd (serve (chat h userId userMsg))) = []
  /\ (forall s : gmap string MemoryRecord,
        store_after s (snd (serve (chat h userId userMsg))) = s).
Proof.
  intros (r & Hget & Hjson) Hllm.
  assert (Hrun : run (chat h userId userMsg)
                 = (Rejected e, [get_call userId; LlmChat (chat_prompt mem userMsg)])).
  { rewrite run_chat, Hget, Hjson. cbv zeta. now rewrite Hllm. }
  unfold serve. rewrite Hrun. repeat split.
Qed.

Lemma inference_failure_aborts_witness :
  run (chat model_down_host "u1" "hello")
  = (Rejected "InferenceError",
     [get_call "u1"; LlmChat (chat_prompt empty_snapshot "hello")]).
Proof.
  refine (proj1 (inference_failure_aborts model_down_host "u1" "hello" empty_snapshot
                   "InferenceError" _ _)).
  - exists (ok_response empty_snapshot). split; reflexivity.
  - reflexivity.
Defined.

(** ** C5: append failure *)

(** C5, as stated, fails: with a Memory Actor whose append rejects, the
    client receives a 500 and not the answer the model gave. *)
Lemma append_failure_loses_answer :
  llmChat append_down_host [get_call "u1"] (chat_prompt empty_snapshot "hello")
  = Resolved "hi"
  /\ serve (chat append_down_host "u1" "hello")
     = ({| status := 500; body := TextBody "Internal Server Error" |},
        [get_call "u1"; LlmChat (chat_prompt empty_snapshot "hello");
         append_call "u1" (turn_item "hello" "hi")])
  /\ fst (serve (chat append_down_host "u1" "hello"))
     <> c_json (JObj [("answer", JStr "hi")]).
Proof. vm_compute. repeat split; try reflexivity. discriminate. Qed.

(** C5 (amended): when inference succeeds and the append call rejects, the
    rejection escapes the handler: the append has been attempted once, the
    client gets a 500 and no answer.  An append call that resolves, with
    whatever status, is not inspected: the client gets [{ answer }] alone. *)
Theorem append_failure_fails_request (h : Host) (userId userMsg answer : string)
    (mem : snapshot) :
  memory_read h userId mem ->
  llmChat h [get_call userId] (chat_prompt mem userMsg) = Resolved answer ->
  let log := [get_call userId; LlmChat (chat_prompt mem userMsg);
              append_call userId (turn_item userMsg answer)] in
  (forall e : exn,
     stub_fetch h [get_call userId; LlmChat (chat_prompt mem userMsg)] userId
       "https://do/append" (append_payload userId (turn_item userMsg answer))
     = Rejected e ->
     run (chat h userId userMsg) = (Rejected e, log)
     /\ serve (chat h userId userMsg)
        = ({| status := 500; body := TextBody "Internal Server Error" |}, log))
  /\ (forall r : response,
        stub_fetch h [get_call userId; LlmChat (chat_prompt mem userMsg)] userId
          "https://do/append" (append_payload userId (turn_item userMsg answer))
        = Resolved r ->
        serve (chat h userId userMsg) = (c_json (JObj [("answer", JStr answer)]), log)).
Proof.
  intros (r0 & Hget & Hjson) Hllm log.
  pose proof (run_chat h userId userMsg) as Hrun.
  rewrite Hget, Hjson in Hrun. cbv zeta in Hrun. rewrite Hllm in Hrun.
  split.
  - intros e Happ. unfold serve. rewrite Hrun, Happ. split; reflexivity.
  - intros r Happ. unfold serve. rewrite Hrun, Happ. reflexivity.
Qed.

Lemma append_failure_fails_request_witness :
  run (chat append_down_host "u1" "hello")
  = (Rejected "StorageUnavailable",
     [get_call "u1"; LlmChat (chat_prompt empty_snapshot "hello");
      append_call "u1" (turn_item "hello" "hi")]).
Proof.
  refine (proj1 (proj1 (append_failure_fails_request append_down_host "u1" "hello" "hi"
                          empty_snapshot _ _) "StorageUnavailable" _)).
  - exists (ok_response empty_snapshot). split; reflexivity.
  - reflexivity.
  - reflexivity.
Defined.

(** ** C6: read failure *)

(** C6, as stated, fails: with a Memory Actor whose [get] rejects, the
    request does not go on with an empty snapshot; it ends in a 500 and
    the model is never called. *)
Lemma get_failure_aborts_request :
  serve (chat get_down_host "u1" "hello")
  = ({| status := 500; body := TextBody "Internal Server Error" |}, [get_call "u1"])
  /\ filter (fun c => is_inference c = true) (snd (serve (chat get_down_host "u1" "hello")))
     = [].
Proof. vm_compute. split; reflexivity. Qed.

(** C6 (amended): when the [get] step fails, by a rejected fetch or by a
    body that is not JSON, the request is aborted: the rejection escapes
    the handler, the client gets a 500, and neither inference nor an
    append is attempted. *)
Theorem get_failure_fails_request (h : Host) (userId userMsg : string) (e : exn) :
  memory_read_fails h userId e ->
  run (chat h userId userMsg) = (Rejected e, [get_call userId])
  /\ serve (chat h userId userMsg)
     = ({| status := 500; body := TextBody "Internal Server Error" |}, [get_call userId])
  /\ filter (fun c => is_inference c = true) (snd (run (chat h userId userMsg))) = []
  /\ filter (fun c => is_append c = true) (snd (run (chat h userId userMsg))) = [].
Proof.
  intros Hfail.
  assert (Hrun : run (chat h userId userMsg) = (Rejected e, [get_call userId])).
  { rewrite run_chat. destruct Hfail as [Hget | (r & Hget & Hjson)].
    - now rewrite Hget.
    - now rewrite Hget, Hjson. }
  unfold serve. rewrite Hrun. repeat split.
Qed.

Lemma get_failure_fails_request_witness :
  run (chat get_down_host "u1" "hello") = (Rejected "StorageUnavailable", [get_call "u1"]).
Proof.
  refine (proj1 (get_failure_fails_request get_down_host "u1" "hello"
                   "StorageUnavailable" _)).
  left. reflexivity.
Defined.

(** ** C9: a falsy profile *)

(** C9: a profile that is present but falsy ([null], [false], [0] or the
    empty string, and these are all the falsy values) renders no profile
    line: the prompt that reaches the model is the one of a snapshot with
    no profile. *)
Theorem falsy_profile_not_rendered (h : Host) (userId userMsg : string)
    (p : json) (hs : option (list string)) :
  memory_read h userId {| prof := Some p; hist := hs |} ->
  truthy (Some p) = false ->
  (p = JNull \/ p = JBool false \/ p = JNum 0 \/ p = JStr EmptyString)
  /\ profile_line {| prof := Some p; hist := hs |} = EmptyString
  /\ chat_prompt {| prof := Some p; hist := hs |} userMsg
     = chat_prompt {| prof := None; hist := hs |} userMsg
  /\ starts_with "Conversation so far:"
       (chat_prompt {| prof := Some p; hist := hs |} userMsg)
  /\ exists rest : list call,
       snd (run (chat h userId userMsg))
       = get_call userId
         :: LlmChat (chat_prompt {| prof := None; hist := hs |} userMsg) :: rest.
Proof.
  intros Hread Hf.
  assert (Hline : profile_line {| prof := Some p; hist := hs |} = EmptyString)
    by now apply profile_line_falsy.
  assert (Hsame : chat_prompt {| prof := Some p; hist := hs |} userMsg
                  = chat_prompt {| prof := None; hist := hs |} userMsg).
  { unfold chat_prompt. rewrite Hline. reflexivity. }
  split; [now apply falsy_values|].
  split; [exact Hline|].
  split; [exact Hsame|].
  split.
  - rewrite Hsame. unfold chat_prompt, profile_line; cbn [truthy prof].
    rewrite append_empty_l. eexists. reflexivity.
  - rewrite <- Hsame. now apply chat_sends_prompt.
Qed.

Lemma falsy_profile_not_rendered_witness :
  Forall (fun p => chat_prompt {| prof := Some p; hist := Some ["t1"] |} "hello"
                   = chat_prompt {| prof := None; hist := Some ["t1"] |} "hello")
         [JNull; JBool false; JNum 0; JStr EmptyString].
Proof.
  refine (@List.Forall_cons _ _ _ _ _ (@List.Forall_cons _ _ _ _ _
            (@List.Forall_cons _ _ _ _ _ (@List.Forall_cons _ _ _ _ _
               (@List.Forall_nil _ _)))));
    match goal with
    | |- chat_prompt {| prof := Some ?p; hist := _ |} _ = _ =>
        refine (proj1 (proj2 (proj2
          (falsy_profile_not_rendered
             (scripted_host
                (Resolved (ok_response {| prof := Some p; hist := Some ["t1"] |}))
                (Resolved "hi") (Resolved (ok_response empty_snapshot)))
             "u1" "hello" p (Some ["t1"]) _ _))));
        [eexists; split; reflexivity | reflexivity]
    end.
Defined.

(** ** C10: an absent history *)

(** C10: when the [get] response has no [hist], the handler does not fail
    on it: the history is taken as the empty list and the prompt that
    reaches the model is the one of an empty history; if the model and the
    append then answer, the request ends with [{ answer }]. *)
Theorem absent_history_reads_empty (h : Host) (userId userMsg : string) (p : jsval) :
  memory_read h userId {| prof := p; hist := None |} ->
  hist_or_empty {| prof := p; hist := None |} = []
  /\ chat_prompt {| prof := p; hist := None |} userMsg
     = chat_prompt {| prof := p; hist := Some [] |} userMsg
  /\ (exists rest : list call,
        snd (run (chat h userId userMsg))
        = get_call userId
          :: LlmChat (chat_prompt {| prof := p; hist := Some [] |} userMsg) :: rest)
  /\ (forall (answer : string) (r : response),
        llmChat h [get_call userId]
          (chat_prompt {| prof := p; hist := Some [] |} userMsg) = Resolved answer ->
        stub_fetch h
          [get_call userId;
           LlmChat (chat_prompt {| prof := p; hist := Some [] |} userMsg)]
          userId "https://do/append" (append_payload userId (turn_item userMsg answer))
        = Resolved r ->
        fst (run (chat h userId userMsg))
        = Resolved (c_json (JObj [("answer", JStr answer)]))).
Proof.
  intros Hread.
  assert (Hsame : chat_prompt {| prof := p; hist := None |} userMsg
                  = chat_prompt {| prof := p; hist := Some [] |} userMsg) by reflexivity.
  split; [reflexivity|]. split; [exact Hsame|]. split.
  - rewrite <- Hsame. now apply chat_sends_prompt.
  - intros answer r Hllm Happ. rewrite <- Hsame in Hllm, Happ.
    destruct Hread as (r0 & Hget & Hjson).
    rewrite run_chat, Hget, Hjson. cbv zeta. now rewrite Hllm, Happ.
Qed.

Lemma absent_history_reads_empty_witness :
  chat_prompt {| prof := None; hist := None |} "hello"
  = chat_prompt {| prof := None; hist := Some [] |} "hello".
Proof.
  refine (proj1 (proj2
    (absent_history_reads_empty
       (scripted_host (Resolved (ok_response {| prof := None; hist := None |}))
                      (Resolved "hi") (Resolved (ok_response empty_snapshot)))
       "u1" "hello" None _))).
  eexists. split; reflexivity.
Defined.

(** ** C7: polling without an id *)

Lemma status_with_id_contacts_engine (h : Host) (i : string) :
  i <> EmptyString ->
  exists rest : list call, snd (run (summarize_status h (Some i))) = FlowGet i :: rest.
Proof.
  intros Hi. unfold summarize_status.
  destruct (String.eqb_spec i EmptyString) as [->|_]; [contradiction|].
  unfold run, mbind, M_bind, get_flow, status_of, await_call. cbn [app].
  destruct (flow_get h [] i) as [inst|e]; [|now exists []].
  cbn [app]. destruct (instance_status h _ inst); now eexists.
Qed.

(** C7: when the [id] query parameter is not supplied, the handler answers
    400 [missing id] and the request has made no call at all, so the
    Workflow Engine is not contacted. *)
Theorem status_without_id_is_bad_request (h : Host) :
  serve (summarize_status h None)
  = ({| status := 400; body := TextBody "missing id" |}, [])
  /\ filter (fun c => is_workflow c = true) (snd (serve (summarize_status h None))) = [].
Proof. split; reflexivity. Qed.

(** ** C8: starting a summarization *)

(** Every way a [/summarize] request can go. *)
Lemma run_summarize (h : Host) (url : option string) :
  run (summarize h url) =
  match flow_create h [] url with
  | Rejected e => (Rejected e, [FlowCreate url])
  | Resolved inst =>
      match instance_status h [FlowCreate url] inst with
      | Rejected e => (Rejected e, [FlowCreate url; InstanceStatus inst])
      | Resolved st =>
          (Resolved (c_json (JObj [("id", JStr (inst_id inst)); ("status", st)])),
           [FlowCreate url; InstanceStatus inst])
      end
  end.
Proof.
  unfold run, summarize, mbind, M_bind, create_flow, status_of, await_call, mret, M_ret.
  cbn [app].
  destruct (flow_create h [] url) as [inst|e]; [|reflexivity].
  cbn [app]. destruct (instance_status h _ inst); reflexivity.
Qed.

(** C8, as stated, fails: an empty [url], and an absent one, go to the
    Workflow Engine as they are, and the instance is created. *)
Lemma summarize_accepts_empty_url :
  serve (summarize fresh_host (Some EmptyString))
  = (c_json (JObj [("id", JStr "wf-1"); ("status", JStr "Queued")]),
     [FlowCreate (Some EmptyString); InstanceStatus {| inst_id := "wf-1" |}])
  /\ serve (summarize fresh_host None)
     = (c_json (JObj [("id", JStr "wf-1"); ("status", JStr "Queued")]),
        [FlowCreate None; InstanceStatus {| inst_id := "wf-1" |}]).
Proof. vm_compute. split; reflexivity. Qed.

(** Every way a [/summarize] request can go, the reading of its body
    included. *)
Lemma run_summarize_route (h : Host) (b : body_reading) :
  run (summarize_route h b) =
  match destructure_url b with
  | Rejected e => (Rejected e, [])
  | Resolved url => run (summarize h url)
  end.
Proof.
  unfold run, summarize_route, mbind, M_bind, await.
  destruct (destructure_url b); reflexivity.
Qed.

(** C8 (amended): the orchestrator does not require [url] to be
    non-empty.  Once the body of the request is read, [url], be it empty
    or absent, is not rejected: the first call asks the Workflow Engine
    for an instance with that very [url], and when the engine creates it
    and gives its status the answer is [{ id, status }].  All validation
    of [url] is left to the workflow: a request fails only when its body
    cannot be read (and then the engine is not called) or when the engine
    fails. *)
Theorem summarize_defers_validation (h : Host) (b : body_reading) :
  (forall url : option string,
     b = BodyObject url ->
     (exists rest : list call, snd (run (summarize_route h b)) = FlowCreate url :: rest)
     /\ (forall (inst : instance) (st : json),
           flow_create h [] url = Resolved inst ->
           instance_status h [FlowCreate url] inst = Resolved st ->
           serve (summarize_route h b)
           = ({| status := 200;
                 body := JsonBody (JObj [("id", JStr (inst_id inst)); ("status", st)]) |},
              [FlowCreate url; InstanceStatus inst])))
  /\ (forall e : exn,
        fst (run (summarize_route h b)) = Rejected e ->
        (destructure_url b = Rejected e /\ snd (run (summarize_route h b)) = [])
        \/ exists url : option string,
             b = BodyObject url
             /\ (flow_create h [] url = Rejected e
                 \/ exists inst : instance,
                      flow_create h [] url = Resolved inst
                      /\ instance_status h [FlowCreate url] inst = Rejected e))
  /\ (forall e : exn,
        destructure_url b = Rejected e ->
        serve (summarize_route h b)
        = ({| status := 500; body := TextBody "Internal Server Error" |}, [])).
Proof.
  split; [|split].
  - intros url ->. split.
    + rewrite run_summarize_route. cbn [destructure_url]. rewrite run_summarize.
      destruct (flow_create h [] url) as [inst|e]; [|now exists []].
      destruct (instance_status h _ inst); now eexists.
    + intros inst st Hc Hs. unfold serve.
      rewrite run_summarize_route. cbn [destructure_url].
      now rewrite run_summarize, Hc, Hs.
  - intros e. rewrite run_summarize_route.
    destruct b as [e0| |url]; cbn [destructure_url fst snd].
    + intros [= ->]. now left.
    + intros [= <-]. now left.
    + rewrite run_summarize. intros He. right. exists url. split; [reflexivity|].
      destruct (flow_create h [] url) as [inst|e0].
      * destruct (instance_status h _ inst) as [st|e1] eqn:Hs; [discriminate He|].
        injection He as ->. right. now exists inst.
      * injection He as ->. now left.
  - intros e He. unfold serve. rewrite run_summarize_route, He. reflexivity.
Qed.

Lemma summarize_defers_validation_witness :
  serve (summarize_route fresh_host (BodyObject (Some EmptyString)))
  = ({| status := 200;
        body := JsonBody (JObj [("id", JStr "wf-1"); ("status", JStr "Queued")]) |},
     [FlowCreate (Some EmptyString); InstanceStatus {| inst_id := "wf-1" |}]).
Proof.
  refine (proj2 (proj1 (summarize_defers_validation fresh_host
                          (BodyObject (Some EmptyString)))
                   (Some EmptyString) eq_refl)
            {| inst_id := "wf-1" |} (JStr "Queued") _ _); reflexivity.
Defined.

(** ** C3: concurrent callers of one Memory Actor *)

Section Interleavings.
Context {A : Type}.
Implicit Types (qs : list (list A)) (l q : list A).

Lemma concat_all_empty qs : Forall (fun q => q = []) qs -> List.concat qs = [].
Proof. induction 1 as [|q qs -> _ IH]; [reflexivity | exact IH]. Qed.

(** An arrival order holds what the callers submitted, no more, no
    less. *)
Lemma interleaving_perm qs l : interleaving qs l -> l ≡ₚ List.concat qs.
Proof.
  induction 1 as [qs Hall | qs i x q l Hi _ IH].
  - now rewrite concat_all_empty.
  - rewrite insert_take_drop in IH by (eapply lookup_lt_Some; eassumption).
    rewrite <- (take_drop_middle qs i (x :: q) Hi).
    rewrite concat_app in IH |- *. cbn [List.concat] in IH |- *.
    rewrite IH. rewrite <- app_comm_cons. apply Permutation_middle.
Qed.

(** An arrival order keeps the order of every caller. *)
Lemma interleaving_sublist qs l (j : nat) q :
  interleaving qs l -> qs !! j = Some q -> q `sublist_of` l.
Proof.
  intros Hil. revert j q.
  induction Hil as [qs Hall | qs i x q' l Hi _ IH]; intros j q Hj.
  - rewrite Forall_lookup in Hall. rewrite (Hall j q Hj). constructor.
  - destruct (decide (i = j)) as [->|Hne].
    + rewrite Hi in Hj. injection Hj as <-.
      apply sublist_skip, (IH j).
      apply list_lookup_insert_eq. eapply lookup_lt_Some; eassumption.
    + apply sublist_cons, (IH j). now rewrite list_lookup_insert_ne.
Qed.

(** The callers' sequences put one after the other are an arrival
    order. *)
Lemma interleaving_one q : interleaving [q] q.
Proof.
  induction q as [|x q IH].
  - constructor. now constructor.
  - now apply (interleaving_step [x :: q] 0%nat x q q).
Qed.
End Interleavings.

Lemma appended_app (userId : string) (l1 l2 : list message) :
  appended userId (l1 ++ l2)%list = (appended userId l1 ++ appended userId l2)%list.
Proof.
  induction l1 as [|[u|u item] l1 IH]; cbn [appended app]; [reflexivity | exact IH |].
  destruct (String.eqb u userId); [|exact IH].
  now rewrite IH.
Qed.

(** Dropping everything but the items appended for [userId] turns an
    arrival order of messages into an arrival order of items. *)
Lemma interleaving_appended (userId : string) (qs : list (list message))
    (l : list message) :
  interleaving qs l ->
  interleaving (appended userId <$> qs) (appended userId l).
Proof.
  induction 1 as [qs Hall | qs i x q l Hi _ IH].
  - constructor. rewrite Forall_fmap. eapply Forall_impl; [exact Hall|].
    now intros q ->.
  - rewrite list_fmap_insert in IH.
    assert (Hq : (appended userId <$> qs) !! i = Some (appended userId (x :: q)))
      by now rewrite list_lookup_fmap, Hi.
    destruct x as [u|u item]; cbn [appended] in Hq |- *.
    + now rewrite (list_insert_id _ _ _ Hq) in IH.
    + destruct (String.eqb u userId).
      * now apply (interleaving_step _ i item (appended userId q)).
      * now rewrite (list_insert_id _ _ _ Hq) in IH.
Qed.

Lemma record_of_insert (s : gmap string MemoryRecord) (u userId : string)
    (r : MemoryRecord) :
  record_of (<[u := r]> s) userId = if String.eqb u userId then r else record_of s userId.
Proof.
  unfold record_of. destruct (String.eqb_spec u userId) as [->|Hne].
  - now rewrite lookup_insert_eq.
  - now rewrite lookup_insert_ne.
Qed.

(** One message changes the record of [userId] by what it appends to it,
    as a whole item at the end. *)
Lemma actor_step_record (s : gmap string MemoryRecord) (m : message) (userId : string) :
  record_of (fst (actor_step s m)) userId
  = {| profile := profile (record_of s userId);
       history := (history (record_of s userId) ++ appended userId [m])%list |}.
Proof.
  destruct m as [u|u item]; cbn [actor_step fst appended].
  - rewrite app_nil_r. now destruct (record_of s userId).
  - rewrite record_of_insert. destruct (String.eqb_spec u userId) as [->|_].
    + reflexivity.
    + rewrite app_nil_r. now destruct (record_of s userId).
Qed.

Lemma actor_run_cons (s : gmap string MemoryRecord) (m : message) (rest : list message) :
  actor_run s (m :: rest)
  = (fst (actor_run (fst (actor_step s m)) rest),
     snd (actor_step s m) :: snd (actor_run (fst (actor_step s m)) rest)).
Proof.
  cbn [actor_run]. destruct (actor_step s m) as [s1 r].
  cbn [fst snd]. now destruct (actor_run s1 rest).
Qed.

(** The record after a run is the record before it, followed by what was
    appended, in arrival order. *)
Lemma actor_run_record (s : gmap string MemoryRecord) (l : list message)
    (userId : string) :
  record_of (fst (actor_run s l)) userId
  = {| profile := profile (record_of s userId);
       history := (history (record_of s userId) ++ appended userId l)%list |}.
Proof.
  revert s. induction l as [|m l IH]; intros s.
  - cbn [actor_run fst appended]. rewrite app_nil_r. now destruct (record_of s userId).
  - rewrite actor_run_cons. cbn [fst]. rewrite IH, actor_step_record. cbn [profile history].
    rewrite <- app_assoc. now rewrite <- appended_app.
Qed.

(** Every message is answered. *)
Lemma actor_run_replies (s : gmap string MemoryRecord) (l : list message) :
  List.length (snd (actor_run s l)) = List.length l.
Proof.
  revert s. induction l as [|m l IH]; intros s; [reflexivity|].
  rewrite actor_run_cons. cbn [snd List.length]. now rewrite IH.
Qed.

(** What a [get] sees: the record as it was, followed by the items
    appended before the [get] arrived, each of them whole. *)
Lemma actor_run_get (s : gmap string MemoryRecord) (l : list message)
    (i : nat) (userId : string) :
  l !! i = Some (MsgGet userId) ->
  snd (actor_run s l) !! i
  = Some (Snap {| prof := profile (record_of s userId);
                  hist := Some (history (record_of s userId)
                                ++ appended userId (take i l))%list |}).
Proof.
  revert s i. induction l as [|m l IH]; intros s i Hi; [discriminate Hi|].
  rewrite actor_run_cons. cbn [snd]. destruct i as [|i].
  - injection Hi as ->. cbn [lookup list_lookup take appended actor_step snd].
    now rewrite app_nil_r.
  - cbn [lookup list_lookup] in Hi |- *. rewrite (IH _ i Hi), actor_step_record.
    cbn [profile history take]. rewrite <- app_assoc.
    now rewrite <- (appended_app userId [m]).
Qed.

Lemma one_arrival_order_interleaves : interleaving two_callers one_arrival_order.
Proof.
  unfold two_callers, one_arrival_order.
  eapply (interleaving_step _ 0%nat); [reflexivity|]. cbn [insert list_insert].
  eapply (interleaving_step _ 1%nat); [reflexivity|]. cbn [insert list_insert].
  eapply (interleaving_step _ 0%nat); [reflexivity|]. cbn [insert list_insert].
  eapply (interleaving_step _ 0%nat); [reflexivity|]. cbn [insert list_insert].
  constructor. repeat constructor.
Defined.

(** C3: whatever order the messages of concurrent callers arrive in, the
    history of [userId] ends up as the history before, followed by exactly
    the submitted items: they are a rearrangement of all the callers'
    items, as many as were submitted, with the items of each caller in the
    order that caller submitted them; and every [get] is answered with the
    history before, followed by the whole items appended before it. *)
Theorem concurrent_appends_serialized (userId : string) (s : gmap string MemoryRecord)
    (callers : list (list message)) (arrivals : list message) :
  interleaving callers arrivals ->
  history (record_of (fst (actor_run s arrivals)) userId)
  = (history (record_of s userId) ++ appended userId arrivals)%list
  /\ interleaving (appended userId <$> callers) (appended userId arrivals)
  /\ appended userId arrivals ≡ₚ List.concat (appended userId <$> callers)
  /\ List.length (appended userId arrivals)
     = List.length (List.concat (appended userId <$> callers))
  /\ (forall (j : nat) (q : list message),
        callers !! j = Some q ->
        appended userId q `sublist_of` appended userId arrivals)
  /\ List.length (snd (actor_run s arrivals)) = List.length arrivals
  /\ (forall i : nat,
        arrivals !! i = Some (MsgGet userId) ->
        snd (actor_run s arrivals) !! i
        = Some (Snap {| prof := profile (record_of s userId);
                        hist := Some (history (record_of s userId)
                                      ++ appended userId (take i arrivals))%list |})
        /\ appended userId (take i arrivals) `prefix_of` appended userId arrivals).
Proof.
  intros Hil.
  pose proof (interleaving_appended userId callers arrivals Hil) as Hitems.
  pose proof (interleaving_perm _ _ Hitems) as Hperm.
  split; [now rewrite actor_run_record|].
  split; [exact Hitems|].
  split; [exact Hperm|].
  split; [now rewrite Hperm|].
  split.
  - intros j q Hj. apply (interleaving_sublist _ _ j _ Hitems).
    now rewrite list_lookup_fmap, Hj.
  - split; [apply actor_run_replies|].
    intros i Hi. split; [now apply actor_run_get|].
    exists (appended userId (drop i arrivals)).
    now rewrite <- appended_app, take_drop.
Qed.

Lemma concurrent_appends_serialized_witness :
  history (record_of (fst (actor_run ∅ one_arrival_order)) "u1") = ["a1"; "b1"; "a2"].
Proof.
  exact (proj1 (concurrent_appends_serialized "u1" ∅ two_callers one_arrival_order
                  one_arrival_order_interleaves)).
Defined.

(** * Further properties of the routes *)

(** ** The calls of [/chat] *)

(** Whatever the host answers, a [/chat] request starts with the [get]
    call, makes at most three calls, of which at most one reaches the
    model and at most one appends, never calls the Workflow Engine, and
    talks to no Durable Object but the one of [userId]. *)
Theorem chat_call_discipline (h : Host) (userId userMsg : string) :
  (exists rest : list call, snd (run (chat h userId userMsg)) = get_call userId :: rest)
  /\ (List.length (snd (run (chat h userId userMsg))) <= 3)%nat
  /\ (List.length (filter (fun c => is_inference c = true)
                     (snd (run (chat h userId userMsg)))) <= 1)%nat
  /\ (List.length (filter (fun c => is_append c = true)
                     (snd (run (chat h userId userMsg)))) <= 1)%nat
  /\ filter (fun c => is_workflow c = true) (snd (run (chat h userId userMsg))) = []
  /\ Forall (addressed_to userId) (snd (run (chat h userId userMsg))).
Proof.
  rewrite run_chat.
  destruct (stub_fetch h [] userId "https://do/get" (get_payload userId)) as [r|e].
  2: { cbn. repeat split; eauto; repeat constructor. }
  destruct (resp_json r) as [mem|e].
  2: { cbn. repeat split; eauto; repeat constructor. }
  cbv zeta. destruct (llmChat h _ _) as [answer|e].
  2: { cbn. repeat split; eauto; repeat constructor. }
  destruct (stub_fetch h _ userId "https://do/append" _) as [r'|e];
    cbn; repeat split; eauto; repeat constructor.
Qed.

(** An append is never issued on its own: if the log of a [/chat] request
    holds an append, then the snapshot was read, the model returned an
    answer, and the append is the one of the turn made of the user message
    and that answer. *)
Theorem chat_append_requires_answer (h : Host) (userId userMsg : string) (c : call) :
  c ∈ snd (run (chat h userId userMsg)) ->
  is_append c = true ->
  exists (mem : snapshot) (answer : string),
    memory_read h userId mem
    /\ llmChat h [get_call userId] (chat_prompt mem userMsg) = Resolved answer
    /\ c = append_call userId (turn_item userMsg answer).
Proof.
  rewrite run_chat.
  destruct (stub_fetch h [] userId "https://do/get" (get_payload userId)) as [r|e] eqn:Hget.
  2: { cbn. intros ->%list_elem_of_singleton Happ. discriminate Happ. }
  destruct (resp_json r) as [mem|e] eqn:Hjson.
  2: { cbn. intros ->%list_elem_of_singleton Happ. discriminate Happ. }
  cbv zeta. destruct (llmChat h _ _) as [answer|e] eqn:Hllm.
  2: { cbn. intros Hin Happ.
       apply elem_of_cons in Hin as [->|Hin]; [discriminate Happ|].
       apply list_elem_of_singleton in Hin as ->. discriminate Happ. }
  assert (Hlog : forall c' : call,
            c' ∈ [get_call userId; LlmChat (chat_prompt mem userMsg);
                  append_call userId (turn_item userMsg answer)] ->
            is_append c' = true ->
            c' = append_call userId (turn_item userMsg answer)).
  { intros c' Hin Happ.
    apply elem_of_cons in Hin as [->|Hin]; [discriminate Happ|].
    apply elem_of_cons in Hin as [->|Hin]; [discriminate Happ|].
    now apply list_elem_of_singleton in Hin. }
  assert (Hin' : c ∈ [get_call userId; LlmChat (chat_prompt mem userMsg);
                       append_call userId (turn_item userMsg answer)] ->
                 is_append c = true ->
                 exists (mem0 : snapshot) (answer0 : string),
                   memory_read h userId mem0
                   /\ llmChat h [get_call userId] (chat_prompt mem0 userMsg)
                      = Resolved answer0
                   /\ c = append_call userId (turn_item userMsg answer0)).
  { intros Hin Happ. exists mem, answer.
    split; [now exists r|]. split; [exact Hllm|]. now apply Hlog. }
  destruct (stub_fetch h _ userId "https://do/append" _); exact Hin'.
Qed.

Lemma chat_append_requires_answer_witness :
  exists (mem : snapshot) (answer : string),
    memory_read fresh_host "u1" mem
    /\ llmChat fresh_host [get_call "u1"] (chat_prompt mem "hello") = Resolved answer
    /\ append_call "u1" (turn_item "hello" "hi")
       = append_call "u1" (turn_item "hello" answer).
Proof.
  apply (chat_append_requires_answer fresh_host "u1" "hello"
           (append_call "u1" (turn_item "hello" "hi"))).
  - apply list_elem_of_In. vm_compute. right; right; left. reflexivity.
  - reflexivity.
Defined.

(** The handler never looks at the status of the Durable Object's
    responses: changing every status changes neither the calls made nor
    the outcome of the request. *)
Theorem chat_ignores_status (f : Z -> Z) (h : Host) (userId userMsg : string) :
  run (chat (restatus f h) userId userMsg) = run (chat h userId userMsg).
Proof.
  rewrite !run_chat. cbn [restatus stub_fetch llmChat].
  destruct (stub_fetch h [] userId "https://do/get" (get_payload userId)) as [r|e];
    [|reflexivity].
  cbn [resp_json]. destruct (resp_json r) as [mem|e]; [|reflexivity].
  cbv zeta. destruct (llmChat h _ _) as [answer|e]; [|reflexivity].
  destruct (stub_fetch h _ userId "https://do/append" _); reflexivity.
Qed.

(** ** The prompt as a transcript *)

Lemma join_snoc (sep t : string) (xs : list string) :
  xs <> [] -> join sep (xs ++ [t])%list = join sep xs +:+ sep +:+ t.
Proof.
  unfold join. induction xs as [|x xs IH]; intros Hne; [contradiction|].
  destruct xs as [|y ys].
  - reflexivity.
  - change (sep_by sep ((x :: y :: ys) ++ [t])%list)
      with (x +:+ sep +:+ sep_by sep ((y :: ys) ++ [t])%list).
    rewrite IH by discriminate.
    change (sep_by sep (x :: y :: ys)) with (x +:+ sep +:+ sep_by sep (y :: ys)).
    now rewrite !append_assoc.
Qed.

(** Prompts grow as a transcript.  When the history is not empty, the
    prompt of the next request, after the turn of this one is appended, is
    the prompt of this request, a space, the answer, and then the new user
    line and the assistant cue. *)
Theorem chat_prompt_extends_transcript (p : jsval) (hs : list string)
    (userMsg answer nextMsg : string) :
  hs <> [] ->
  chat_prompt {| prof := p; hist := Some (hs ++ [turn_item userMsg answer])%list |} nextMsg
  = chat_prompt {| prof := p; hist := Some hs |} userMsg
    +:+ " " +:+ answer +:+ nl +:+ "User: " +:+ nextMsg +:+ nl +:+ "Assistant:".
Proof.
  intros Hne. unfold chat_prompt, history_text, hist_or_empty, turn_item. cbn [hist].
  rewrite (join_snoc _ _ _ Hne). rewrite !append_assoc. reflexivity.
Qed.

Lemma chat_prompt_extends_transcript_witness :
  chat_prompt {| prof := None; hist := Some ["t0"; turn_item "hello" "hi"] |} "again"
  = chat_prompt {| prof := None; hist := Some ["t0"] |} "hello"
    +:+ " hi" +:+ nl +:+ "User: again" +:+ nl +:+ "Assistant:".
Proof.
  refine (chat_prompt_extends_transcript None ["t0"] "hello" "hi" "again" _).
  discriminate.
Defined.

(** The first turn is the exception: with an empty history the prompt has
    a blank line after the header, which the next prompt does not keep. *)
Theorem chat_prompt_first_turn_blank_line (p : jsval) (userMsg answer nextMsg : string) :
  chat_prompt {| prof := p; hist := Some [] |} userMsg
  = profile_line {| prof := p; hist := Some [] |} +:+ "Conversation so far:" +:+ nl
    +:+ nl +:+ "User: " +:+ userMsg +:+ nl +:+ "Assistant:"
  /\ chat_prompt {| prof := p; hist := Some [turn_item userMsg answer] |} nextMsg
     = profile_line {| prof := p; hist := Some [] |} +:+ "Conversation so far:" +:+ nl
       +:+ "User: " +:+ userMsg +:+ nl +:+ "Assistant: " +:+ answer +:+ nl
       +:+ "User: " +:+ nextMsg +:+ nl +:+ "Assistant:".
Proof.
  split.
  - reflexivity.
  - unfold chat_prompt, history_text, hist_or_empty, turn_item, join, profile_line.
    cbn [hist prof sep_by]. rewrite !append_assoc. reflexivity.
Qed.

(** The user message is put in the prompt as it is: a message that holds
    newlines can stand for a whole stored turn.  The prompt of a history
    ending with the turn [(m, a)] and the prompt of the history without it
    are the same when the message carries that turn itself. *)
Theorem chat_prompt_forged_turn (p : jsval) (hs : list string) (m a userMsg : string) :
  hs <> [] ->
  chat_prompt {| prof := p; hist := Some (hs ++ [turn_item m a])%list |} userMsg
  = chat_prompt {| prof := p; hist := Some hs |}
      (m +:+ nl +:+ "Assistant: " +:+ a +:+ nl +:+ "User: " +:+ userMsg).
Proof.
  intros Hne. unfold chat_prompt, history_text, hist_or_empty, turn_item. cbn [hist].
  rewrite (join_snoc _ _ _ Hne). rewrite !append_assoc. reflexivity.
Qed.

Lemma chat_prompt_forged_turn_witness :
  chat_prompt {| prof := None; hist := Some ["t0"; turn_item "hello" "hi"] |} "again"
  = chat_prompt {| prof := None; hist := Some ["t0"] |}
      ("hello" +:+ nl +:+ "Assistant: hi" +:+ nl +:+ "User: again").
Proof.
  refine (chat_prompt_forged_turn None ["t0"] "hello" "hi" "again" _).
  discriminate.
Defined.

(** ** [JSON.stringify] writes no control character *)

Lemma no_control_app (a b : string) :
  no_control (a +:+ b) = no_control a && no_control b.
Proof.
  induction a as [|c a IH]; [reflexivity|].
  rewrite append_cons. cbn [no_control]. now rewrite IH, andb_assoc.
Qed.

Lemma no_control_escape_char (c : ascii) : no_control (escape_char c) = true.
Proof. destruct c as [[] [] [] [] [] [] [] []]; reflexivity. Qed.

Lemma no_control_escape_string (s : string) : no_control (escape_string s) = true.
Proof.
  induction s as [|c s IH]; [reflexivity|].
  cbn [escape_string]. now rewrite no_control_app, no_control_escape_char, IH.
Qed.

Lemma no_control_quote_string (s : string) : no_control (quote_string s) = true.
Proof.
  unfold quote_string. cbn [no_control].
  now rewrite no_control_app, no_control_escape_string.
Qed.

Lemma no_control_sep_by (sep : string) (parts : list string) :
  no_control sep = true ->
  Forall (fun part => no_control part = true) parts ->
  no_control (sep_by sep parts) = true.
Proof.
  intros Hsep. induction 1 as [|part parts Hpart Hparts IH]; [reflexivity|].
  destruct parts as [|part' parts']; [exact Hpart|].
  change (sep_by sep (part :: part' :: parts'))
    with (part +:+ sep +:+ sep_by sep (part' :: parts')).
  now rewrite !no_control_app, Hpart, Hsep, IH.
Qed.

Lemma no_control_pretty_N_go (x : N) (s : string) :
  no_control s = true -> no_control (pretty_N_go x s) = true.
Proof.
  revert s. induction (N.lt_wf_0 x) as [x _ IH]; intros s Hs.
  destruct (decide (0 < x)%N) as [Hpos|Hzero].
  - rewrite pretty_N_go_step by exact Hpos.
    apply IH; [now apply N.div_lt|].
    cbn [no_control]. rewrite Hs. unfold pretty_N_char.
    now repeat case_match.
  - assert (x = 0%N) as -> by lia. now rewrite pretty_N_go_0.
Qed.

Lemma no_control_pretty_Z (n : Z) : no_control (pretty n) = true.
Proof.
  assert (Hpos : forall q : positive, no_control (pretty q) = true).
  { intros q. unfold pretty, pretty_positive, pretty, pretty_N.
    destruct (decide (N.pos q = 0%N)); [reflexivity|].
    now apply no_control_pretty_N_go. }
  destruct n as [|q|q]; unfold pretty, pretty_Z; [reflexivity | apply Hpos |].
  rewrite no_control_app. now rewrite (Hpos q).
Qed.

(** Induction on JSON values, through arrays and objects. *)
Lemma json_nested_ind (P : json -> Prop) :
  P JNull ->
  (forall b, P (JBool b)) ->
  (forall n, P (JNum n)) ->
  (forall s, P (JStr s)) ->
  (forall items, Forall P items -> P (JArr items)) ->
  (forall fields, Forall (fun kv => P (snd kv)) fields -> P (JObj fields)) ->
  forall v, P v.
Proof.
  intros Hnull Hbool Hnum Hstr Harr Hobj.
  fix IH 1. intros [|b|n|s|items|fields].
  - exact Hnull.
  - apply Hbool.
  - apply Hnum.
  - apply Hstr.
  - apply Harr.
    refine ((fix go (l : list json) : Forall P l :=
               match l with
               | [] => @List.Forall_nil _ _
               | x :: l' => @List.Forall_cons _ _ x l' (IH x) (go l')
               end) items).
  - apply Hobj.
    refine ((fix go (l : list (string * json)) : Forall (fun kv => P (snd kv)) l :=
               match l with
               | [] => @List.Forall_nil _ _
               | (k, v) :: l' =>
                   @List.Forall_cons _ (fun kv => P (snd kv)) (k, v) l' (IH v) (go l')
               end) fields).
Qed.

(** Whatever the value, [JSON.stringify] writes it without a control
    character, hence on one line. *)
Lemma no_control_stringify (v : json) : no_control (stringify v) = true.
Proof.
  induction v as [|b|n|s|items IH|fields IH] using json_nested_ind.
  - reflexivity.
  - now destruct b.
  - apply no_control_pretty_Z.
  - apply no_control_quote_string.
  - cbn [stringify]. rewrite !no_control_app.
    rewrite no_control_sep_by; [reflexivity | reflexivity |].
    now rewrite List.Forall_map.
  - cbn [stringify]. rewrite !no_control_app.
    rewrite no_control_sep_by; [reflexivity | reflexivity |].
    rewrite List.Forall_map. eapply Forall_impl; [exact IH|].
    intros [k v] Hv. cbn [fst snd] in *.
    now rewrite !no_control_app, no_control_quote_string, Hv.
Qed.

(** The profile takes exactly one line of the prompt: when the profile
    line is rendered, it is a text without any control character followed
    by one newline, whatever strings the profile holds. *)
Theorem profile_line_one_line (mem : snapshot) :
  profile_line mem = EmptyString
  \/ exists text : string,
       profile_line mem = text +:+ nl
       /\ no_control text = true
       /\ starts_with "User profile: " text.
Proof.
  destruct (truthy (prof mem)) eqn:Ht.
  - right. destruct (profile_line_truthy mem Ht) as (p & Hp & Hline).
    exists ("User profile: " +:+ stringify p). split.
    + rewrite Hline. now rewrite append_assoc.
    + split; [|now eexists].
      rewrite no_control_app. now rewrite no_control_stringify.
  - left. now apply profile_line_falsy.
Qed.

(** The body of both requests to the Durable Object is one line without
    control characters, although the appended item holds a newline: the
    newline travels escaped. *)
Theorem wire_body_one_line (userId userMsg answer : string) :
  (exists text : string,
     wire_body (get_call userId) = Some text /\ no_control text = true)
  /\ (exists text : string,
        wire_body (append_call userId (turn_item userMsg answer)) = Some text
        /\ no_control text = true)
  /\ no_control (turn_item userMsg answer) = false.
Proof.
  split; [|split].
  - eexists. split; [reflexivity|]. apply no_control_stringify.
  - eexists. split; [reflexivity|]. apply no_control_stringify.
  - unfold turn_item. rewrite !no_control_app. cbn.
    now rewrite !andb_false_r.
Qed.

(** ** The summarization routes *)

(** Every way a status poll with a non-empty [id] can go. *)
Lemma run_summarize_status (h : Host) (i : string) :
  i <> EmptyString ->
  run (summarize_status h (Some i)) =
  match flow_get h [] i with
  | Rejected e => (Rejected e, [FlowGet i])
  | Resolved inst =>
      match instance_status h [FlowGet i] inst with
      | Rejected e => (Rejected e, [FlowGet i; InstanceStatus inst])
      | Resolved st => (Resolved (c_json st), [FlowGet i; InstanceStatus inst])
      end
  end.
Proof.
  intros Hi. unfold summarize_status.
  destruct (String.eqb_spec i EmptyString) as [->|_]; [contradiction|].
  unfold run, mbind, M_bind, get_flow, status_of, await_call, mret, M_ret. cbn [app].
  destruct (flow_get h [] i) as [inst|e]; [|reflexivity].
  cbn [app]. destruct (instance_status h _ inst); reflexivity.
Qed.

(** When the engine has created the instance but its first status query
    fails, the client gets a 500: the instance exists and its id is not
    returned. *)
Theorem summarize_status_failure_hides_instance (h : Host) (url : option string)
    (inst : instance) (e : exn) :
  flow_create h [] url = Resolved inst ->
  instance_status h [FlowCreate url] inst = Rejected e ->
  serve (summarize h url)
  = ({| status := 500; body := TextBody "Internal Server Error" |},
     [FlowCreate url; InstanceStatus inst]).
Proof.
  intros Hc Hs. unfold serve. now rewrite run_summarize, Hc, Hs.
Qed.

Lemma summarize_status_failure_hides_instance_witness :
  serve (summarize (engine_down_host true) (Some "https://example.com/a"))
  = ({| status := 500; body := TextBody "Internal Server Error" |},
     [FlowCreate (Some "https://example.com/a"); InstanceStatus {| inst_id := "wf-7" |}]).
Proof.
  refine (summarize_status_failure_hides_instance (engine_down_host true)
            (Some "https://example.com/a") {| inst_id := "wf-7" |}
            "status unavailable" _ _); reflexivity.
Defined.

(** The two summarization routes call the Workflow Engine and nothing
    else, at most twice per request: neither the Durable Object nor the
    model is reached. *)
Theorem workflow_routes_call_only_engine (h : Host) (url id : option string) :
  Forall (fun c => is_workflow c = true) (snd (run (summarize h url)))
  /\ (List.length (snd (run (summarize h url))) <= 2)%nat
  /\ Forall (fun c => is_workflow c = true) (snd (run (summarize_status h id)))
  /\ (List.length (snd (run (summarize_status h id))) <= 2)%nat.
Proof.
  assert (Hstart : Forall (fun c => is_workflow c = true) (snd (run (summarize h url)))
                   /\ (List.length (snd (run (summarize h url))) <= 2)%nat).
  { rewrite run_summarize. destruct (flow_create h [] url) as [inst|e].
    - destruct (instance_status h _ inst); cbn; split; repeat constructor.
    - cbn; split; repeat constructor. }
  assert (Hpoll : Forall (fun c => is_workflow c = true) (snd (run (summarize_status h id)))
                  /\ (List.length (snd (run (summarize_status h id))) <= 2)%nat).
  { destruct id as [i|]; [|cbn; split; repeat constructor].
    destruct (String.eqb_spec i EmptyString) as [->|Hi]; [cbn; split; repeat constructor|].
    rewrite (run_summarize_status h i Hi). destruct (flow_get h [] i) as [inst|e].
    - destruct (instance_status h _ inst); cbn; split; repeat constructor.
    - cbn; split; repeat constructor. }
  tauto.
Qed.

(** A status poll leaves the engine alone exactly when [id] is missing or
    empty, and it is then answered 400 [missing id]. *)
Theorem status_contacts_engine_iff (h : Host) (id : option string) :
  (snd (run (summarize_status h id)) = [] <-> id = None \/ id = Some EmptyString)
  /\ (id = None \/ id = Some EmptyString ->
      serve (summarize_status h id)
      = ({| status := 400; body := TextBody "missing id" |}, [])).
Proof.
  split; [split|].
  - destruct id as [i|]; [|now left].
    destruct (String.eqb_spec i EmptyString) as [->|Hi]; [now right|].
    destruct (status_with_id_contacts_engine h i Hi) as [rest ->]. discriminate.
  - intros [-> | ->]; reflexivity.
  - intros [-> | ->]; reflexivity.
Qed.

Lemma status_contacts_engine_iff_witness :
  serve (summarize_status fresh_host (Some EmptyString))
  = ({| status := 400; body := TextBody "missing id" |}, []).
Proof.
  refine (proj2 (status_contacts_engine_iff fresh_host (Some EmptyString)) _).
  right. reflexivity.
Defined.

(** A poll with an id the engine resolves returns the status object as
    it is, as the whole JSON body, after exactly two engine calls. *)
Theorem status_poll_returns_status (h : Host) (i : string) (inst : instance) (st : json) :
  i <> EmptyString ->
  flow_get h [] i = Resolved inst ->
  instance_status h [FlowGet i] inst = Resolved st ->
  serve (summarize_status h (Some i))
  = ({| status := 200; body := JsonBody st |}, [FlowGet i; InstanceStatus inst]).
Proof.
  intros Hi Hg Hs. unfold serve. now rewrite (run_summarize_status h i Hi), Hg, Hs.
Qed.

Lemma status_poll_returns_status_witness :
  serve (summarize_status fresh_host (Some "wf-1"))
  = ({| status := 200; body := JsonBody (JStr "Queued") |},
     [FlowGet "wf-1"; InstanceStatus {| inst_id := "wf-1" |}]).
Proof.
  refine (status_poll_returns_status fresh_host "wf-1" {| inst_id := "wf-1" |}
            (JStr "Queued") _ _ _); [discriminate | reflexivity | reflexivity].
Defined.

(** A poll with an id the engine does not resolve is answered 500, not a
    client error, and the status is not queried. *)
Theorem status_unresolved_id_is_server_error (h : Host) (i : string) (e : exn) :
  i <> EmptyString ->
  flow_get h [] i = Rejected e ->
  serve (summarize_status h (Some i))
  = ({| status := 500; body := TextBody "Internal Server Error" |}, [FlowGet i]).
Proof.
  intros Hi Hg. unfold serve. now rewrite (run_summarize_status h i Hi), Hg.
Qed.

Lemma status_unresolved_id_is_server_error_witness :
  serve (summarize_status (engine_down_host true) (Some "nope"))
  = ({| status := 500; body := TextBody "Internal Server Error" |}, [FlowGet "nope"]).
Proof.
  refine (status_unresolved_id_is_server_error (engine_down_host true) "nope"
            "instance not found" _ _); [discriminate | reflexivity].
Defined.

(** ** The CORS handlers *)

Lemma get_header_c_header (name name' value : string) (c : context) :
  get_header name (c_header name' value c)
  = if decide (lower name' = lower name) then Some value else get_header name c.
Proof.
  unfold get_header, c_header. cbn [res_headers].
  destruct (decide (lower name' = lower name)) as [->|Hne].
  - apply lookup_insert_eq.
  - now apply lookup_insert_ne.
Qed.

(** An [OPTIONS] request is answered 204 with an empty body by either
    handler, and nothing after it runs: no call is made, whatever the rest
    of the chain would do.  The two answers do not advertise the same
    methods: [app.options] allows [DELETE], [app.all] does not. *)
Theorem preflight_answered_at_once (c : context)
    (next : context -> M (context * http_response)) (log : list call) :
  req_method c = "OPTIONS" ->
  exists c1 c2 : context,
    options_all c log = (Resolved (c1, {| status := 204; body := TextBody EmptyString |}), log)
    /\ all_cors c next log
       = (Resolved (c2, {| status := 204; body := TextBody EmptyString |}), log)
    /\ get_header "Access-Control-Allow-Methods" c1 = Some "GET,POST,DELETE,OPTIONS"
    /\ get_header "Access-Control-Allow-Methods" c2 = Some "GET,POST,OPTIONS".
Proof.
  intros Hm. eexists _, (all_headers c). split; [reflexivity|]. split.
  - unfold all_cors. change (req_method (all_headers c)) with (req_method c).
    now rewrite Hm.
  - unfold all_headers. rewrite !get_header_c_header. split; reflexivity.
Qed.

Lemma preflight_answered_at_once_witness :
  exists c1 c2 : context,
    options_all preflight_context []
    = (Resolved (c1, {| status := 204; body := TextBody EmptyString |}), [])
    /\ all_cors preflight_context (as_last (chat fresh_host "u1" "hello")) []
       = (Resolved (c2, {| status := 204; body := TextBody EmptyString |}), [])
    /\ get_header "Access-Control-Allow-Methods" c1 = Some "GET,POST,DELETE,OPTIONS"
    /\ get_header "Access-Control-Allow-Methods" c2 = Some "GET,POST,OPTIONS".
Proof.
  refine (preflight_answered_at_once preflight_context
            (as_last (chat fresh_host "u1" "hello")) [] _).
  reflexivity.
Defined.

(** On every other method [app.all] replaces the three CORS headers,
    under whatever letter case they were set before, leaves every other
    header alone, and hands over to the handler behind it, whose calls and
    outcome it does not change. *)
Theorem all_cors_wraps_handler (c : context) (handler : M http_response) :
  req_method c <> "OPTIONS" ->
  run (all_cors c (as_last handler))
  = match run handler with
    | (Resolved resp, log) => (Resolved (all_headers c, resp), log)
    | (Rejected e, log) => (Rejected e, log)
    end
  /\ (forall name : string,
        get_header name (all_headers c)
        = if decide (lower name = "access-control-allow-headers") then Some "content-type"
          else if decide (lower name = "access-control-allow-methods")
               then Some "GET,POST,OPTIONS"
          else if decide (lower name = "access-control-allow-origin") then Some "*"
          else get_header name c).
Proof.
  intros Hm. split.
  - unfold all_cors. change (req_method (all_headers c)) with (req_method c).
    destruct (String.eqb_spec (req_method c) "OPTIONS") as [Heq|_]; [contradiction|].
    unfold run, as_last, mbind, M_bind, mret, M_ret.
    now destruct (handler []) as [[resp|e] log].
  - intros name. unfold all_headers. rewrite !get_header_c_header.
    change (lower "access-control-allow-headers") with "access-control-allow-headers".
    change (lower "access-control-allow-methods") with "access-control-allow-methods".
    change (lower "access-control-allow-origin") with "access-control-allow-origin".
    repeat case_decide; congruence.
Qed.

Lemma all_cors_wraps_handler_witness :
  run (all_cors post_context (as_last (chat fresh_host "u1" "hello")))
  = (Resolved (all_headers post_context, c_json (JObj [("answer", JStr "hi")])),
     [get_call "u1"; LlmChat (chat_prompt empty_snapshot "hello");
      append_call "u1" (turn_item "hello" "hi")]).
Proof.
  refine (proj1 (all_cors_wraps_handler post_context (chat fresh_host "u1" "hello") _)).
  discriminate.
Defined.
